(** * places-autocomplete-hook: the [usePlacesAutocomplete] hook of [src/index.ts]

    The development follows the source file top-down:

    - the JavaScript values the hook handles (strings, parsed JSON, thrown
      values, completions of a [try] block);
    - the hook's configuration, its three state cells and their setters;
    - [clear], [extractAddressComponent], [getPlaceDetails], [search];
    - the runtime around the hook (timeouts, the requests in flight, mounting),
      where [debouncedSearch] and the effect cleanup live;
    - the properties of the specification, one theorem each. *)

From Stdlib Require Import String Ascii List Bool Arith PArith Lia PrimFloat DecimalString.
Import ListNotations.
Open Scope string_scope.
Set Warnings "-register-all".

(* ================================================================= *)
(** ** JavaScript values *)

Module Js.

(** A string is a sequence of code units; the model keeps the code units
    below 256.  [String.prototype.trim] strips white space and line
    terminators; below 256 these are TAB, LF, VT, FF, CR, SPACE and
    NO-BREAK SPACE. *)
Definition is_space (c : ascii) : bool :=
  let n := nat_of_ascii c in
  (Nat.leb 9 n && Nat.leb n 13) || Nat.eqb n 32 || Nat.eqb n 160.

Fixpoint trimStart (s : string) : string :=
  match s with
  | EmptyString => EmptyString
  | String c rest => if is_space c then trimStart rest else s
  end.

Fixpoint trimEnd (s : string) : string :=
  match s with
  | EmptyString => EmptyString
  | String c rest =>
      match trimEnd rest with
      | EmptyString => if is_space c then EmptyString else String c EmptyString
      | kept => String c kept
      end
  end.

Definition trim (s : string) : string := trimEnd (trimStart s).

(** [blank s]: every code unit of [s] is white space (the empty string
    included). *)
Fixpoint blank (s : string) : bool :=
  match s with
  | EmptyString => true
  | String c rest => is_space c && blank rest
  end.

(** [String.prototype.includes]: [sub] occurs in [s]. *)
Fixpoint str_includes (s sub : string) : bool :=
  String.prefix sub s ||
  match s with
  | EmptyString => false
  | String _ rest => str_includes rest sub
  end.

(** [`${n}`] for a non-negative integer. *)
Definition decimal (n : nat) : string := NilEmpty.string_of_uint (Nat.to_uint n).

(** A parsed JSON document.  Numbers are IEEE doubles, as in the language.
    An object is the list of its own properties in insertion order; a parsed
    object has no two properties of one name, and [lookup] reads the first. *)
Inductive JSON : Type :=
| JNull
| JBool (b : bool)
| JNum (n : float)
| JStr (s : string)
| JArr (items : list JSON)
| JObj (props : list (string * JSON)).

(** A value read from a document: [None] is [undefined]. *)
Definition JSValue : Type := option JSON.

Fixpoint lookup (name : string) (props : list (string * JSON)) : JSValue :=
  match props with
  | [] => None
  | (k, v) :: rest => if String.eqb k name then Some v else lookup name rest
  end.

(** [ToBoolean]. *)
Definition truthy (v : JSValue) : bool :=
  match v with
  | None => false
  | Some JNull => false
  | Some (JBool b) => b
  | Some (JNum n) => negb (is_zero n || is_nan n)
  | Some (JStr s) => negb (String.eqb s "")
  | Some (JArr _) => true
  | Some (JObj _) => true
  end.

(** The message of an [Error].  [new Error(x)] stores [String(x)]: the text
    itself when [x] is a string, and the conversion of [x], kept symbolic,
    when it is not. *)
Inductive Message : Type :=
| Text (s : string)
| StringOf (v : JSON).

Record JsError : Type := mkError { err_name : string; err_message : Message }.

(** What a [throw] or a rejected promise carries: an instance of [Error], or
    any other value. *)
Inductive Thrown : Type :=
| ThrownError (e : JsError)
| ThrownOther (v : JSValue).

(** The completion of an expression: a value, or an abrupt completion. *)
Inductive Completion (A : Type) : Type :=
| Normal (a : A)
| Throw (t : Thrown).
Arguments Normal {A} a.
Arguments Throw {A} t.

Definition cbind {A B} (c : Completion A) (k : A -> Completion B) : Completion B :=
  match c with
  | Normal a => k a
  | Throw t => Throw t
  end.

(** [new Error(x)] for a truthy [x]. *)
Definition new_Error (x : JSON) : JsError :=
  match x with
  | JStr s => mkError "Error" (Text s)
  | other => mkError "Error" (StringOf other)
  end.

(** A [TypeError] raised by the engine; the texts are V8's and the hook never
    reads them. *)
Definition TypeError (text : string) : Thrown :=
  ThrownError (mkError "TypeError" (Text text)).

Definition raise {A} (text : string) : Completion A := Throw (TypeError text).

Definition describe (v : JSValue) : string :=
  match v with
  | None => "undefined"
  | Some JNull => "null"
  | Some _ => "value"
  end.

(** [v.name], for the property names the hook reads ([error], [message],
    [suggestions], [placePrediction], [formattedAddress], [addressComponents],
    [location], [types], [longText]): none of them is a built-in property of
    a string, an array, a number, a boolean or [Object.prototype], so only an
    object's own properties answer, and [null] and [undefined] throw. *)
Definition get_prop (v : JSValue) (name : string) : Completion JSValue :=
  match v with
  | None | Some JNull =>
      raise ("Cannot read properties of " ++ describe v ++ " (reading '" ++ name ++ "')")
  | Some (JObj props) => Normal (lookup name props)
  | Some _ => Normal None
  end.

(** [v?.name]. *)
Definition get_prop_opt (v : JSValue) (name : string) : Completion JSValue :=
  match v with
  | None | Some JNull => Normal None
  | Some _ => get_prop v name
  end.

(** [v.map(f)]: only arrays have [map]; the callback runs on the items in
    order and the first abrupt completion ends the call. *)
Fixpoint map_items {B} (f : JSON -> Completion B) (items : list JSON) : Completion (list B) :=
  match items with
  | [] => Normal []
  | x :: rest =>
      cbind (f x) (fun y => cbind (map_items f rest) (fun ys => Normal (y :: ys)))
  end.

Definition js_map {B} (v : JSValue) (f : JSON -> Completion B) : Completion (list B) :=
  match v with
  | Some (JArr items) => map_items f items
  | None | Some JNull =>
      raise ("Cannot read properties of " ++ describe v ++ " (reading 'map')")
  | Some _ => raise "map is not a function"
  end.

(** [v.find(p)]: the first item on which [p] is true. *)
Fixpoint find_items (p : JSON -> Completion bool) (items : list JSON) : Completion JSValue :=
  match items with
  | [] => Normal None
  | x :: rest =>
      cbind (p x) (fun hit => if hit then Normal (Some x) else find_items p rest)
  end.

Definition js_find (v : JSValue) (p : JSON -> Completion bool) : Completion JSValue :=
  match v with
  | Some (JArr items) => find_items p items
  | None | Some JNull =>
      raise ("Cannot read properties of " ++ describe v ++ " (reading 'find')")
  | Some _ => raise "find is not a function"
  end.

(** [x === s] for a string [s]. *)
Definition is_string (s : string) (x : JSON) : bool :=
  match x with
  | JStr t => String.eqb t s
  | _ => false
  end.

(** [v.includes(s)] for a string [s]: membership in an array, occurrence in a
    string; nothing else has the method. *)
Definition js_includes (v : JSValue) (s : string) : Completion bool :=
  match v with
  | Some (JArr items) => Normal (existsb (is_string s) items)
  | Some (JStr t) => Normal (str_includes t s)
  | None | Some JNull =>
      raise ("Cannot read properties of " ++ describe v ++ " (reading 'includes')")
  | Some _ => raise "includes is not a function"
  end.

(** [err instanceof Error ? err : new Error(fallback)]. *)
Definition as_Error (t : Thrown) (fallback : string) : JsError :=
  match t with
  | ThrownError e => e
  | ThrownOther _ => mkError "Error" (Text fallback)
  end.

End Js.
Export Js.

Notation "'let!' x ':=' c 'in' k" := (cbind c (fun x => k))
  (at level 10, x name, c at level 100, k at level 200).

(* ================================================================= *)
(** ** The transport *)

(** What [fetch] is called with.  The headers are the properties of the
    [headers] literal in order.  [body] is the value handed to
    [JSON.stringify], without the properties whose value is [undefined]
    (which [JSON.stringify] leaves out). *)
Record Request : Type := mkRequest {
  url : string;
  method : string;
  headers : list (string * string);
  body : option JSON
}.

(** What the hook reads of a [Response]: [ok], [status], and the outcome of
    [response.json()], which rejects when the body is not JSON. *)
Record Response : Type := mkResponse {
  ok : bool;
  status : nat;
  json : Completion JSON
}.

(** How the promise returned by [fetch] settles. *)
Inductive FetchOutcome : Type :=
| Rejects (t : Thrown)
| Resolves (r : Response).

(** The injected transport: the outcome of each request. *)
Definition Transport : Type := Request -> FetchOutcome.

(* ================================================================= *)
(** ** Options and state of the hook *)

Record LocationBias : Type := mkLocation {
  lat : float;
  lng : float;
  radius : option float
}.

(** [UsePlacesAutocompleteOptions], as [usePlacesAutocomplete] destructures
    it; [None] is a property left out. *)
Record Options : Type := mkOptions {
  apiKey : string;
  debounceMs : option nat;
  language : option string;
  types : option (list string);
  sessionToken : option string;
  location : option LocationBias
}.

(** The defaults of the parameter list: [debounceMs = 300], [language = 'en']. *)
Definition debounceMs_of (o : Options) : nat :=
  match debounceMs o with Some d => d | None => 300 end.

Definition language_of (o : Options) : string :=
  match language o with Some l => l | None => "en" end.

(** The three [useState] cells. *)
Record State : Type := mkState {
  predictions : list JSValue;
  loading : bool;
  error : option JsError
}.

Definition initial : State := mkState [] false None.

(** A call of one of the three setters. *)
Inductive Setter : Type :=
| setPredictions (l : list JSValue)
| setLoading (b : bool)
| setError (e : option JsError).

Definition apply_setter (st : State) (c : Setter) : State :=
  match c with
  | setPredictions l => mkState l (loading st) (error st)
  | setLoading b => mkState (predictions st) b (error st)
  | setError e => mkState (predictions st) (loading st) e
  end.

Definition run_setters (calls : list Setter) (st : State) : State :=
  fold_left apply_setter calls st.

(** A stretch of the hook's code: the setter calls it makes, in order, and
    how it completes. *)
Definition Eff (A : Type) : Type := (list Setter * Completion A)%type.

Definition emit (c : Setter) : Eff unit := ([c], Normal tt).

Definition lift {A} (c : Completion A) : Eff A := ([], c).

Definition ebind {A B} (m : Eff A) (k : A -> Eff B) : Eff B :=
  match m with
  | (calls, Normal a) => let (more, r) := k a in ((calls ++ more)%list, r)
  | (calls, Throw t) => (calls, Throw t)
  end.

Definition eseq {B} (m : Eff unit) (k : Eff B) : Eff B := ebind m (fun _ => k).

(** [try { m } catch (err) { handler err }]. *)
Definition try_catch {A} (m : Eff A) (handler : Thrown -> Eff A) : Eff A :=
  match m with
  | (calls, Throw t) => let (more, r) := handler t in ((calls ++ more)%list, r)
  | done => done
  end.

(** [try { m } finally { cleanup }]: the completion of [m] stands unless
    [cleanup] itself throws. *)
Definition try_finally {A} (m : Eff A) (cleanup : Eff unit) : Eff A :=
  let (calls, r) := m in
  let (more, r') := cleanup in
  ((calls ++ more)%list, match r' with Throw t => Throw t | Normal _ => r end).

(** The setter calls of [head], then [m]. *)
Definition after {A} (head : list Setter) (m : Eff A) : Eff A :=
  ((head ++ fst m)%list, snd m).

(* ================================================================= *)
(** ** [clear] *)

Definition clear : Eff unit :=
  eseq (emit (setPredictions [])) (emit (setError None)).

(* ================================================================= *)
(** ** The two requests *)

(** [...(sessionToken && { 'X-Goog-Api-Key': apiKey })]: spreading a falsy
    value ([undefined] or the empty string) adds nothing. *)
Definition session_header (o : Options) : list (string * string) :=
  match sessionToken o with
  | Some token => if String.eqb token "" then [] else [("X-Goog-Api-Key", apiKey o)]
  | None => []
  end.

Definition details_request (o : Options) (placeId : string) : Request :=
  mkRequest
    ("https://places.googleapis.com/v1/places/" ++ placeId ++ "?key=" ++ apiKey o
       ++ "&languageCode=" ++ language_of o)
    "GET"
    ([("Content-Type", "application/json");
      ("X-Goog-FieldMask", "formattedAddress,addressComponents,location")]
       ++ session_header o)%list
    None.

(** [requestBody]: [types] and [locationBias] are added when the option is
    given (an array and an object are truthy whatever they hold). *)
Definition requestBody (o : Options) (input : string) : JSON :=
  JObj ([("input", JStr input); ("languageCode", JStr (language_of o))]
        ++ match types o with
           | Some ts => [("types", JArr (map JStr ts))]
           | None => []
           end
        ++ match location o with
           | Some l =>
               [("locationBias",
                 JObj [("circle",
                        JObj ([("center",
                                JObj [("latitude", JNum (lat l));
                                      ("longitude", JNum (lng l))])]
                              ++ match radius l with
                                 | Some r => [("radius", JNum r)]
                                 | None => []
                                 end)%list)])]
           | None => []
           end)%list.

Definition autocomplete_request (o : Options) (input : string) : Request :=
  mkRequest
    ("https://places.googleapis.com/v1/places:autocomplete?key=" ++ apiKey o)
    "POST"
    ([("Content-Type", "application/json");
      ("X-Goog-FieldMask",
       "suggestions.placePrediction.place,suggestions.placePrediction.placeId,suggestions.placePrediction.text,suggestions.placePrediction.structuredFormat,suggestions.placePrediction.types")]
       ++ session_header o)%list
    (Some (requestBody o input)).

(** The [if (!response.ok)] block, the same in both calls:
    [throw new Error(errorData.error?.message || `HTTP error! status: ${response.status}`)]. *)
Definition http_failure {A} (r : Response) : Completion A :=
  let! errorData := json r in
  let! err := get_prop (Some errorData) "error" in
  let! message := get_prop_opt err "message" in
  Throw (ThrownError
           (new_Error
              match message with
              | Some m => if truthy message then m
                          else JStr ("HTTP error! status: " ++ decimal (status r))
              | None => JStr ("HTTP error! status: " ++ decimal (status r))
              end)).

(* ================================================================= *)
(** ** [extractAddressComponent] and [getPlaceDetails] *)

(** [components.find(comp => comp.types.includes(type))?.longText]. *)
Definition extractAddressComponent (components : JSValue) (type : string)
  : Completion JSValue :=
  let! component :=
    js_find components
      (fun comp => let! tys := get_prop (Some comp) "types" in js_includes tys type) in
  get_prop_opt component "longText".

(** The object [getPlaceDetails] resolves with. *)
Record PlaceDetails : Type := mkPlaceDetails {
  placeId : string;
  formattedAddress : JSValue;
  addressComponents : JSValue;
  pd_location : JSValue;
  streetNumber : JSValue;
  streetName : JSValue;
  city : JSValue;
  state : JSValue;
  country : JSValue;
  postalCode : JSValue
}.

(** From [const addressComponents = data.addressComponents || []] to the
    [return]. *)
Definition place_details_of (id : string) (data : JSON) : Completion PlaceDetails :=
  let! listed := get_prop (Some data) "addressComponents" in
  let components := if truthy listed then listed else Some (JArr []) in
  let! address := get_prop (Some data) "formattedAddress" in
  let! loc := get_prop (Some data) "location" in
  let! street_number := extractAddressComponent components "street_number" in
  let! route := extractAddressComponent components "route" in
  let! locality := extractAddressComponent components "locality" in
  let! area := extractAddressComponent components "administrative_area_level_1" in
  let! ctry := extractAddressComponent components "country" in
  let! postal_code := extractAddressComponent components "postal_code" in
  Normal (mkPlaceDetails id address components loc
            street_number route locality area ctry postal_code).

(** The body of the [try] of [getPlaceDetails] once [fetch] has settled. *)
Definition details_attempt (id : string) (outcome : FetchOutcome) : Completion PlaceDetails :=
  match outcome with
  | Rejects t => Throw t
  | Resolves r =>
      if negb (ok r) then http_failure r
      else let! data := json r in place_details_of id data
  end.

(** [getPlaceDetails]: the calls it makes to the transport, and how its
    promise settles.  The first statement of the function is the [fetch]. *)
Definition getPlaceDetails (o : Options) (fetch : Transport) (id : string)
  : list Request * Completion PlaceDetails :=
  let request := details_request o id in
  ([request],
   match details_attempt id (fetch request) with
   | Normal details => Normal details
   | Throw err =>
       Throw (ThrownError (as_Error err "An error occurred while fetching place details"))
   end).

(* ================================================================= *)
(** ** [search] *)

(** From [await fetch] to the call of [setPredictions], inside the [try]:
    the argument of [setPredictions].  The mapped array is truthy, so the
    [|| []] after it never applies. *)
Definition suggestions_of (outcome : FetchOutcome) : Completion (list JSValue) :=
  match outcome with
  | Rejects t => Throw t
  | Resolves r =>
      if negb (ok r) then http_failure r
      else
        let! data := json r in
        let! suggestions := get_prop (Some data) "suggestions" in
        js_map suggestions (fun suggestion => get_prop (Some suggestion) "placePrediction")
  end.

(** [search] runs in two stretches: up to [await fetch(...)], and from the
    settled promise to the end of [finally]. *)
Inductive Stretch : Type :=
| Returned (e : Eff unit)
| Awaiting (calls : list Setter) (request : Request).

Definition search_begin (o : Options) (input : string) : Stretch :=
  if negb (truthy (Some (JStr (trim input)))) then Returned clear
  else Awaiting [setLoading true; setError None] (autocomplete_request o input).

Definition search_resume (outcome : FetchOutcome) : Eff unit :=
  try_finally
    (try_catch
       (ebind (lift (suggestions_of outcome)) (fun l => emit (setPredictions l)))
       (fun err =>
          eseq (emit (setError (Some (as_Error err "An error occurred"))))
               (emit (setPredictions []))))
    (emit (setLoading false)).

(** One call of [search] awaited to its end with nothing running in between:
    the calls made to the transport, the setter calls, and the completion. *)
Definition search (o : Options) (fetch : Transport) (input : string)
  : list Request * Eff unit :=
  match search_begin o input with
  | Returned e => ([], e)
  | Awaiting calls request => ([request], after calls (search_resume (fetch request)))
  end.

(** The state after [search], from [st]. *)
Definition search_state (o : Options) (fetch : Transport) (input : string) (st : State)
  : State :=
  run_setters (fst (snd (search o fetch input))) st.

(* ================================================================= *)
(** ** The runtime: timeouts, requests in flight, mounting *)

(** A pending [setTimeout(async () => { await search(input); resolve(); }, debounceMs)].
    A handle is a positive integer in a browser and an object in Node, truthy
    in both: [if (debounceTimer.current)] asks whether a handle was stored. *)
Record Timer : Type := mkTimer {
  handle : positive;
  due : nat;
  queued : string
}.

Record World : Type := mkWorld {
  now : nat;                         (* the clock, in milliseconds *)
  fresh : positive;                  (* the next handle [setTimeout] returns *)
  timers : list Timer;               (* the timeouts not yet run or cleared, oldest first *)
  debounceTimer : option positive;   (* [debounceTimer.current] *)
  mounted : bool;                    (* the component is mounted *)
  cells : State;                     (* what the component renders *)
  in_flight : list nat;              (* the [fetch] calls not yet settled, by position in [fetched] *)
  fetched : list Request;            (* every call of [fetch], oldest first *)
  searched : list string             (* every call of [search], oldest first *)
}.

Definition boot : World := mkWorld 0 1 [] None true initial [] [] [].

Definition clearTimeout (h : positive) (pending : list Timer) : list Timer :=
  filter (fun t => negb (Pos.eqb (handle t) h)) pending.

(** React applies a setter call to a mounted component and drops it once the
    component is unmounted. *)
Definition commit (calls : list Setter) (w : World) : World :=
  if mounted w
  then mkWorld (now w) (fresh w) (timers w) (debounceTimer w) (mounted w)
               (run_setters calls (cells w)) (in_flight w) (fetched w) (searched w)
  else w.

(** The timeout's callback: [search(input)] up to its [await]. *)
Definition run_search (o : Options) (input : string) (w : World) : World :=
  let w := mkWorld (now w) (fresh w) (timers w) (debounceTimer w) (mounted w)
                   (cells w) (in_flight w) (fetched w) (searched w ++ [input]) in
  match search_begin o input with
  | Returned e => commit (fst e) w
  | Awaiting calls request =>
      let w := commit calls w in
      mkWorld (now w) (fresh w) (timers w) (debounceTimer w) (mounted w)
              (cells w) (in_flight w ++ [length (fetched w)]) (fetched w ++ [request])
              (searched w)
  end.

(** [debouncedSearch(input)]: clear the stored timeout, arm a new one. *)
Definition debouncedSearch (o : Options) (input : string) (w : World) : World :=
  let pending :=
    match debounceTimer w with
    | Some h => clearTimeout h (timers w)
    | None => timers w
    end in
  mkWorld (now w) (Pos.succ (fresh w))
          (pending ++ [mkTimer (fresh w) (now w + debounceMs_of o) input])
          (Some (fresh w)) (mounted w) (cells w) (in_flight w) (fetched w) (searched w).

(** The clock advances by [ms]: the timeouts that are due run, oldest first. *)
Definition elapse (o : Options) (ms : nat) (w : World) : World :=
  let t := now w + ms in
  let ready := filter (fun x => Nat.leb (due x) t) (timers w) in
  let later := filter (fun x => negb (Nat.leb (due x) t)) (timers w) in
  fold_left (fun acc x => run_search o (queued x) acc) ready
    (mkWorld t (fresh w) later (debounceTimer w) (mounted w) (cells w)
             (in_flight w) (fetched w) (searched w)).

(** The [fetch] call number [call] settles: the rest of [search] runs. *)
Definition respond (call : nat) (outcome : FetchOutcome) (w : World) : World :=
  if existsb (Nat.eqb call) (in_flight w)
  then commit (fst (search_resume outcome))
         (mkWorld (now w) (fresh w) (timers w) (debounceTimer w) (mounted w) (cells w)
                  (filter (fun c => negb (Nat.eqb call c)) (in_flight w))
                  (fetched w) (searched w))
  else w.

(** The cleanup of the effect:
    [if (debounceTimer.current) clearTimeout(debounceTimer.current)]. *)
Definition cleanup (w : World) : World :=
  match debounceTimer w with
  | Some h =>
      mkWorld (now w) (fresh w) (clearTimeout h (timers w)) (debounceTimer w) (mounted w)
              (cells w) (in_flight w) (fetched w) (searched w)
  | None => w
  end.

(** Unmounting runs the cleanup and leaves the component unmounted. *)
Definition unmount (w : World) : World :=
  let w := cleanup w in
  mkWorld (now w) (fresh w) (timers w) (debounceTimer w) false
          (cells w) (in_flight w) (fetched w) (searched w).

Inductive Event : Type :=
| Query (input : string)                         (* the caller calls the returned [search] *)
| Clear                                          (* the caller calls [clear] *)
| Elapse (ms : nat)                              (* time passes *)
| Respond (call : nat) (outcome : FetchOutcome)  (* a [fetch] settles *)
| Unmount.                                       (* the component is disposed of *)

Definition step (o : Options) (w : World) (e : Event) : World :=
  match e with
  | Query input => debouncedSearch o input w
  | Clear => commit (fst clear) w
  | Elapse ms => elapse o ms w
  | Respond call outcome => respond call outcome w
  | Unmount => unmount w
  end.

Definition run (o : Options) (w : World) (es : list Event) : World :=
  fold_left (step o) es w.





(* ================================================================= *)
(** ** The words of the specification *)

(** "Its placePrediction": the property of that name of a suggestion. *)
Definition placePrediction_of (suggestion : JSON) : JSValue :=
  match suggestion with
  | JObj props => lookup "placePrediction" props
  | _ => None
  end.

(** "The error body's error.message". *)
Definition error_message_field (errorData : JSON) : JSValue :=
  match errorData with
  | JObj props =>
      match lookup "error" props with
      | Some (JObj eprops) => lookup "message" eprops
      | _ => None
      end
  | _ => None
  end.

(** The message "synthesized from the status code". *)
Definition status_message (r : Response) : Message :=
  Text ("HTTP error! status: " ++ decimal (status r)).

(** An address component as [AddressComponent] declares it: an object whose
    [types] is an array. *)
Definition is_component (comp : JSON) : bool :=
  match comp with
  | JObj props =>
      match lookup "types" props with
      | Some (JArr _) => true
      | _ => false
      end
  | _ => false
  end.

(** "A component whose types set contains the tag". *)
Definition has_tag (tag : string) (comp : JSON) : bool :=
  match comp with
  | JObj props =>
      match lookup "types" props with
      | Some (JArr tys) => existsb (is_string tag) tys
      | _ => false
      end
  | _ => false
  end.

(** "The longText of the first address component whose types set contains
    the tag, undefined when no component matches". *)
Definition first_longText (tag : string) (comps : list JSON) : JSValue :=
  match List.find (has_tag tag) comps with
  | Some (JObj props) => lookup "longText" props
  | _ => None
  end.

(** The ways a search fails: the transport raises, the status is not a
    success, or the success body has no [suggestions]. *)
Inductive Failure : FetchOutcome -> Prop :=
| transport_raise (t : Thrown) : Failure (Rejects t)
| failure_status (r : Response) : ok r = false -> Failure (Resolves r)
| missing_suggestions (r : Response) (data : JSON) :
    ok r = true -> json r = Normal data ->
    get_prop (Some data) "suggestions" = Normal None ->
    Failure (Resolves r).

(** [loading] goes up before the request and comes down when it settles. *)
Definition loading_lifecycle (o : Options) (input : string) : Prop :=
  exists calls,
    search_begin o input = Awaiting calls (autocomplete_request o input) /\
    (forall st, loading (run_setters calls st) = true) /\
    (forall outcome st, loading (run_setters (fst (search_resume outcome)) st) = false).

(** Options with the session token replaced. *)
Definition with_sessionToken (o : Options) (token : option string) : Options :=
  mkOptions (apiKey o) (debounceMs o) (language o) (types o) token (location o).

(** A request with more headers at the end. *)
Definition add_headers (extra : list (string * string)) (q : Request) : Request :=
  mkRequest (url q) (method q) (headers q ++ extra)%list (body q).



(** The pending timeouts all belong to the hook: each is the one whose handle
    [debounceTimer.current] holds. *)
Definition owned (w : World) : Prop :=
  forall t, In t (timers w) -> debounceTimer w = Some (handle t).


(** The hook is unmounted and no timeout is pending. *)
Definition frozen (w : World) : Prop :=
  mounted w = false /\ timers w = [].

(** One timeout is pending: the one [debounceTimer.current] holds, set for
    [input] a full delay from now. *)
Definition armed (o : Options) (w : World) (input : string) : Prop :=
  exists h,
    timers w = [mkTimer h (now w + debounceMs_of o) input] /\
    debounceTimer w = Some h.

(** The network calls a search for [text] makes. *)
Definition calls_for (o : Options) (text : string) : list Request :=
  if String.eqb (trim text) "" then [] else [autocomplete_request o text].

(* ================================================================= *)
(** ** Sample data *)

Definition sample_options : Options := mkOptions "KEY" None None None None None.

Definition sample_prediction : JSON :=
  JObj [("place", JStr "places/1"); ("placeId", JStr "1")].

Definition respond_with (r : Response) : Transport := fun _ => Resolves r.

Definition one_suggestion : Transport :=
  respond_with
    (mkResponse true 200
       (Normal (JObj [("suggestions", JArr [JObj [("placePrediction", sample_prediction)]])]))).

Definition bad_gateway : Transport :=
  respond_with
    (mkResponse false 502
       (Throw (ThrownError (mkError "SyntaxError" (Text "Unexpected token '<'"))))).

(** The transports of the repository's tests. *)
Definition network_error : Transport :=
  fun _ => Rejects (ThrownError (mkError "TypeError" (Text "Network error"))).

Definition invalid_response : Transport :=
  respond_with (mkResponse true 200 (Normal (JObj [("invalid", JStr "response")]))).

Definition no_suggestions : Transport :=
  respond_with (mkResponse true 200 (Normal (JObj [("suggestions", JArr [])]))).

Definition bare_place : Transport :=
  respond_with
    (mkResponse true 200
       (Normal (JObj [("formattedAddress", JStr "123 Test St, Test City, Test Country");
                      ("addressComponents", JArr []);
                      ("location", JObj [("latitude", JNum 0); ("longitude", JNum 0)])]))).

(** A transport that rejects with a value that is not an [Error]. *)
Definition rejects_with_text : Transport :=
  fun _ => Rejects (ThrownOther (Some (JStr "offline"))).

Definition sample_component : JSON :=
  JObj [("longText", JStr "94105"); ("shortText", JStr "94105");
        ("types", JArr [JStr "postal_code"])].

Definition sample_place : Transport :=
  respond_with
    (mkResponse true 200
       (Normal (JObj [("formattedAddress", JStr "1 Main St");
                      ("addressComponents", JArr [sample_component])]))).

(* ================================================================= *)
(** ** Further vocabulary *)

Definition is_array (v : JSON) : bool :=
  match v with
  | JArr _ => true
  | _ => false
  end.



Definition is_query (e : Event) : bool :=
  match e with
  | Query _ => true
  | _ => false
  end.

(** How often the caller called the returned [search]. *)
Definition count_queries (es : list Event) : nat := length (filter is_query es).

(** Calls of the returned [search], each followed by a wait. *)
Fixpoint spaced (calls : list (string * nat)) : list Event :=
  match calls with
  | [] => []
  | (input, wait) :: more => Query input :: Elapse wait :: spaced more
  end.

(** A transport that answers with a failure status and a JSON error body. *)
Definition quota_exceeded : Transport :=
  respond_with
    (mkResponse false 429
       (Normal (JObj [("error", JObj [("message", JStr "Quota exceeded")])]))).

(* ================================================================= *)
(** ** The scenarios of the repository's tests *)

Example test_debounce_search_requests :
  fetched (run sample_options boot [Query "test"]) = [] /\
  fetched (run sample_options boot [Query "test"; Elapse 300]) =
    [autocomplete_request sample_options "test"].
Proof. split; reflexivity. Qed.

Example test_multiple_rapid_searches :
  fetched (run sample_options boot
             [Query "test1"; Query "test2"; Query "test3"; Elapse 300]) =
    [autocomplete_request sample_options "test3"].
Proof. reflexivity. Qed.

Example test_api_request :
  cells (run sample_options boot
           [Query "test"; Elapse 300;
            Respond 0 (one_suggestion (autocomplete_request sample_options "test"))]) =
    mkState [Some sample_prediction] false None.
Proof. reflexivity. Qed.

Example test_no_predictions :
  cells (run sample_options boot
           [Query "nonexistent"; Elapse 300;
            Respond 0 (no_suggestions (autocomplete_request sample_options "nonexistent"))]) =
    mkState [] false None.
Proof. reflexivity. Qed.

Example test_network_errors :
  cells (run sample_options boot
           [Query "test"; Elapse 300;
            Respond 0 (network_error (autocomplete_request sample_options "test"))]) =
    mkState [] false (Some (mkError "TypeError" (Text "Network error"))).
Proof. reflexivity. Qed.

Example test_invalid_api_responses :
  cells (run sample_options boot
           [Query "test"; Elapse 300;
            Respond 0 (invalid_response (autocomplete_request sample_options "test"))]) =
    mkState [] false
      (Some (mkError "TypeError"
               (Text "Cannot read properties of undefined (reading 'map')"))).
Proof. reflexivity. Qed.

Example test_empty_search_input :
  fetched (run sample_options boot [Query ""; Elapse 300]) = [] /\
  cells (run sample_options boot [Query ""; Elapse 300]) = initial.
Proof. split; reflexivity. Qed.

Example test_unmounting_during_search :
  loading (cells (run sample_options boot [Query "test"; Unmount])) = false /\
  fetched (run sample_options boot [Query "test"; Unmount; Elapse 300]) = [].
Proof. split; reflexivity. Qed.

Example test_get_place_details :
  getPlaceDetails sample_options bare_place "1" =
    ([mkRequest "https://places.googleapis.com/v1/places/1?key=KEY&languageCode=en" "GET"
        [("Content-Type", "application/json");
         ("X-Goog-FieldMask", "formattedAddress,addressComponents,location")]
        None],
     Normal (mkPlaceDetails "1" (Some (JStr "123 Test St, Test City, Test Country"))
               (Some (JArr []))
               (Some (JObj [("latitude", JNum 0); ("longitude", JNum 0)]))
               None None None None None None)).
Proof. reflexivity. Qed.

(* ================================================================= *)
(** ** Trimming *)

Lemma trimStart_blank (s : string) : blank s = true -> trimStart s = "".
Proof.
  induction s as [|c rest IH]; simpl; [reflexivity|].
  destruct (is_space c); simpl; [exact IH | discriminate].
Qed.

Lemma trimStart_not_blank (s : string) :
  blank s = false ->
  exists c rest, trimStart s = String c rest /\ is_space c = false.
Proof.
  induction s as [|c rest IH]; simpl; [discriminate|].
  destruct (is_space c) eqn:E; simpl; intros H.
  - exact (IH H).
  - exists c, rest. split; [reflexivity | exact E].
Qed.

Lemma trimEnd_keeps_head (c : ascii) (rest : string) :
  is_space c = false -> trimEnd (String c rest) <> "".
Proof.
  intros E. simpl. destruct (trimEnd rest); [rewrite E|]; discriminate.
Qed.

(** The trimmed text is empty exactly when the text is blank. *)
Lemma trim_empty_iff_blank (s : string) : trim s = "" <-> blank s = true.
Proof.
  unfold trim. split.
  - destruct (blank s) eqn:B; [reflexivity|].
    destruct (trimStart_not_blank s B) as (c & rest & -> & E).
    intros H. exfalso. exact (trimEnd_keeps_head c rest E H).
  - intros B. rewrite (trimStart_blank s B). reflexivity.
Qed.

Lemma search_begin_blank (o : Options) (input : string) :
  trim input = "" -> search_begin o input = Returned clear.
Proof. unfold search_begin. intros ->. reflexivity. Qed.

Lemma search_begin_text (o : Options) (input : string) :
  trim input <> "" ->
  search_begin o input =
  Awaiting [setLoading true; setError None] (autocomplete_request o input).
Proof.
  unfold search_begin. intros H. simpl.
  destruct (String.eqb_spec (trim input) ""); [contradiction | reflexivity].
Qed.

(* ================================================================= *)
(** ** Setter calls *)

(** Whatever the outcome, the second stretch of [search] completes normally
    and its last setter call is [setLoading(false)]. *)
Lemma search_resume_shape (outcome : FetchOutcome) :
  (exists l, suggestions_of outcome = Normal l /\
             search_resume outcome = ([setPredictions l; setLoading false], Normal tt)) \/
  (exists t, suggestions_of outcome = Throw t /\
             search_resume outcome =
             ([setError (Some (as_Error t "An error occurred")); setPredictions [];
               setLoading false], Normal tt)).
Proof.
  unfold search_resume. destruct (suggestions_of outcome) as [l|t].
  - left. exists l. split; reflexivity.
  - right. exists t. split; reflexivity.
Qed.

Lemma search_resume_normal (outcome : FetchOutcome) :
  snd (search_resume outcome) = Normal tt.
Proof.
  destruct (search_resume_shape outcome) as [(l & _ & ->) | (t & _ & ->)]; reflexivity.
Qed.

Lemma search_resume_loading (outcome : FetchOutcome) (st : State) :
  loading (run_setters (fst (search_resume outcome)) st) = false.
Proof.
  destruct (search_resume_shape outcome) as [(l & _ & ->) | (t & _ & ->)]; reflexivity.
Qed.

(* ================================================================= *)
(** ** Blank input *)

(** C7.  When the trimmed query is empty (the query is empty or holds white
    space only), [search] returns in its first stretch without a call to the
    transport, and leaves the prediction sequence empty and the error unset. *)
Theorem search_blank_short_circuit
  (o : Options) (fetch : Transport) (input : string) (st : State) :
  trim input = "" ->
  search_begin o input = Returned clear /\
  fst (search o fetch input) = [] /\
  snd (snd (search o fetch input)) = Normal tt /\
  predictions (search_state o fetch input st) = [] /\
  error (search_state o fetch input st) = None.
Proof.
  intros H. unfold search_state, search.
  rewrite (search_begin_blank o input H). repeat split.
Qed.

Lemma search_blank_short_circuit_witness :
  trim "  " = "" /\
  predictions (search_state sample_options one_suggestion "  "
                 (mkState [Some sample_prediction] false None)) = [].
Proof.
  split; [reflexivity|].
  apply (search_blank_short_circuit sample_options one_suggestion "  "
           (mkState [Some sample_prediction] false None)).
  reflexivity.
Defined.

(* ================================================================= *)
(** ** The loading flag *)

(** C8, as amended.  For every query whose trimmed text is not empty,
    [search] sets [loading] to true before it calls the transport, with the
    autocomplete request, and sets it to false when the call has settled,
    whatever the outcome. *)
Theorem search_loading_lifecycle (o : Options) (input : string) :
  trim input <> "" -> loading_lifecycle o input.
Proof.
  intros H. exists [setLoading true; setError None]. split; [|split].
  - exact (search_begin_text o input H).
  - intros st. reflexivity.
  - intros outcome st. apply search_resume_loading.
Qed.

Lemma search_loading_lifecycle_witness :
  trim "main st" <> "" /\ loading_lifecycle sample_options "main st".
Proof.
  split; [discriminate|].
  apply (search_loading_lifecycle sample_options "main st"). discriminate.
Defined.

(** C8 as stated fails on a query that is not empty but blank: [search]
    returns through [clear], [loading] is never raised and the transport is
    not called. *)
Lemma loading_not_raised_for_blank_query :
  " " <> "" /\
  ~ loading_lifecycle sample_options " " /\
  fst (search sample_options one_suggestion " ") = [] /\
  loading (search_state sample_options one_suggestion " " initial) = false.
Proof.
  split; [discriminate|]. split; [|split; reflexivity].
  intros (calls & H & _). discriminate H.
Qed.

(* ================================================================= *)
(** ** [clear] *)

(** C5.  [clear] empties the predictions and unsets the error; the hook has
    no cell for a query text or a status, and [loading] is left as it was. *)
Theorem clear_resets_predictions_and_error (st : State) :
  clear = ([setPredictions []; setError None], Normal tt) /\
  run_setters (fst clear) st = mkState [] (loading st) None.
Proof. split; reflexivity. Qed.

(* ================================================================= *)
(** ** The session token *)

Lemma session_header_with (o : Options) (token : option string) :
  session_header (with_sessionToken o token) =
  match token with
  | Some t => if String.eqb t "" then [] else [("X-Goog-Api-Key", apiKey o)]
  | None => []
  end.
Proof. reflexivity. Qed.

(** C10.  Both requests built with a session token are the requests built
    without one, with one more header when the token is not the empty
    string: [X-Goog-Api-Key], holding the API key.  Nothing else of the
    request depends on the token, and nothing depends on its text. *)
Theorem session_token_not_sent
  (o : Options) (token : string) (input id : string) :
  let extra := if String.eqb token "" then [] else [("X-Goog-Api-Key", apiKey o)] in
  autocomplete_request (with_sessionToken o (Some token)) input =
    add_headers extra (autocomplete_request (with_sessionToken o None) input) /\
  details_request (with_sessionToken o (Some token)) id =
    add_headers extra (details_request (with_sessionToken o None) id).
Proof.
  simpl. unfold autocomplete_request, details_request, add_headers. simpl.
  rewrite !session_header_with. simpl. rewrite ?app_nil_r.
  split; reflexivity.
Qed.

(* ================================================================= *)
(** ** A successful search *)

Lemma map_items_placePrediction (items : list JSON) :
  Forall (fun s => s <> JNull) items ->
  map_items (fun suggestion => get_prop (Some suggestion) "placePrediction") items =
  Normal (map placePrediction_of items).
Proof.
  set (f := fun suggestion => get_prop (Some suggestion) "placePrediction").
  induction 1 as [|s rest Hs _ IH]; [reflexivity|].
  cbn [map_items]. unfold f at 1.
  destruct s; try contradiction; cbn [get_prop cbind]; rewrite IH; reflexivity.
Qed.

Lemma suggestions_of_success (r : Response) (data : JSON) (items : list JSON) :
  ok r = true -> json r = Normal data ->
  get_prop (Some data) "suggestions" = Normal (Some (JArr items)) ->
  Forall (fun s => s <> JNull) items ->
  suggestions_of (Resolves r) = Normal (map placePrediction_of items).
Proof.
  intros Hok Hjson Hget Hitems. unfold suggestions_of.
  rewrite Hok, Hjson. cbn [negb cbind]. rewrite Hget. cbn [cbind js_map].
  apply map_items_placePrediction, Hitems.
Qed.



(* ================================================================= *)
(** ** A failed search *)

Lemma http_failure_throws {A} (r : Response) : exists t, @http_failure A r = Throw t.
Proof.
  unfold http_failure.
  destruct (json r) as [errorData|t]; cbn [cbind]; [|eexists; reflexivity].
  destruct (get_prop (Some errorData) "error") as [err|t]; cbn [cbind];
    [|eexists; reflexivity].
  destruct (get_prop_opt err "message") as [message|t]; cbn [cbind];
    eexists; reflexivity.
Qed.

(** The error thrown for a failure status whose body parsed to something
    other than [null]. *)
Lemma http_failure_message {A} (r : Response) (errorData : JSON) :
  json r = Normal errorData -> errorData <> JNull ->
  @http_failure A r =
  Throw (ThrownError
           match error_message_field errorData with
           | Some m => if truthy (Some m) then new_Error m
                       else mkError "Error" (status_message r)
           | None => mkError "Error" (status_message r)
           end).
Proof.
  intros Hjson Hnull. unfold http_failure, status_message. rewrite Hjson.
  cbn [cbind].
  destruct errorData as [|b|n|s|items|props]; try contradiction;
    cbn [get_prop get_prop_opt cbind error_message_field]; try reflexivity.
  destruct (lookup "error" props) as [[|b|n|s|items|eprops]|];
    cbn [get_prop get_prop_opt cbind]; try reflexivity.
  destruct (lookup "message" eprops) as [m|]; [|reflexivity].
  destruct (truthy (Some m)); reflexivity.
Qed.

Lemma failure_throws (outcome : FetchOutcome) :
  Failure outcome -> exists t, suggestions_of outcome = Throw t.
Proof.
  intros [t | r Hok | r data Hok Hjson Hget]; cbn [suggestions_of].
  - eexists; reflexivity.
  - rewrite Hok. cbn [negb]. apply http_failure_throws.
  - rewrite Hok, Hjson. cbn [negb cbind]. rewrite Hget. cbn [cbind js_map].
    eexists; reflexivity.
Qed.

Lemma search_state_thrown
  (o : Options) (fetch : Transport) (input : string) (st : State) (t : Thrown) :
  trim input <> "" ->
  suggestions_of (fetch (autocomplete_request o input)) = Throw t ->
  search_state o fetch input st =
  mkState [] false (Some (as_Error t "An error occurred")).
Proof.
  intros Htext Ht. unfold search_state, search.
  rewrite (search_begin_text o input Htext). unfold search_resume. rewrite Ht.
  reflexivity.
Qed.

Lemma search_completes (o : Options) (fetch : Transport) (input : string) :
  snd (snd (search o fetch input)) = Normal tt.
Proof.
  unfold search, search_begin.
  destruct (negb _); [reflexivity|]. simpl. apply search_resume_normal.
Qed.

(** C4, as amended.  For every query whose trimmed text is not empty, every
    failure of the search (the transport raises, the status is not a
    success, the success body has no [suggestions]) leaves an error set and
    the predictions empty, and [search] itself completes normally.  The
    error is: what the transport raised when that is an [Error], and a new
    [Error] "An error occurred" when it is anything else; for a failure
    status whose body parsed to a value other than [null], an [Error] with
    the body's [error.message] when that is a non-empty string, and with the
    message made from the status code when it is missing or falsy. *)
Theorem search_failure_sets_error
  (o : Options) (fetch : Transport) (input : string) (st : State) :
  trim input <> "" ->
  Failure (fetch (autocomplete_request o input)) ->
  let st' := search_state o fetch input st in
  error st' <> None /\
  predictions st' = [] /\
  snd (snd (search o fetch input)) = Normal tt /\
  (forall e, fetch (autocomplete_request o input) = Rejects (ThrownError e) ->
             error st' = Some e) /\
  (forall v, fetch (autocomplete_request o input) = Rejects (ThrownOther v) ->
             error st' = Some (mkError "Error" (Text "An error occurred"))) /\
  (forall r errorData,
      fetch (autocomplete_request o input) = Resolves r -> ok r = false ->
      json r = Normal errorData -> errorData <> JNull ->
      (forall m, error_message_field errorData = Some (JStr m) -> m <> "" ->
                 error st' = Some (mkError "Error" (Text m))) /\
      (truthy (error_message_field errorData) = false ->
       error st' = Some (mkError "Error" (status_message r)))).
Proof.
  intros Htext Hfail st'. subst st'.
  destruct (failure_throws _ Hfail) as (t & Ht).
  rewrite (search_state_thrown o fetch input st t Htext Ht). simpl.
  split; [discriminate|]. split; [reflexivity|].
  split; [apply search_completes|].
  split; [|split].
  - intros e He. rewrite He in Ht. simpl in Ht. injection Ht as <-. reflexivity.
  - intros v Hv. rewrite Hv in Ht. simpl in Ht. injection Ht as <-. reflexivity.
  - intros r errorData Hr Hok Hjson Hnull.
    rewrite Hr in Ht. simpl in Ht. rewrite Hok in Ht. simpl in Ht.
    rewrite (http_failure_message r errorData Hjson Hnull) in Ht.
    injection Ht as <-. split.
    + intros m Hm Hne. rewrite Hm. simpl.
      destruct (String.eqb_spec m ""); [contradiction | reflexivity].
    + intros Hfalsy. destruct (error_message_field errorData) as [m|]; [|reflexivity].
      simpl in Hfalsy. rewrite Hfalsy. reflexivity.
Qed.

Lemma search_failure_sets_error_witness :
  trim "main" <> "" /\
  Failure (bad_gateway (autocomplete_request sample_options "main")) /\
  predictions (search_state sample_options bad_gateway "main"
                 (mkState [Some sample_prediction] false None)) = [] /\
  error (search_state sample_options bad_gateway "main"
           (mkState [Some sample_prediction] false None)) <> None.
Proof.
  assert (Htext : trim "main" <> "") by discriminate.
  assert (Hfail : Failure (bad_gateway (autocomplete_request sample_options "main")))
    by (apply failure_status; reflexivity).
  split; [exact Htext|]. split; [exact Hfail|].
  destruct (search_failure_sets_error sample_options bad_gateway "main"
              (mkState [Some sample_prediction] false None) Htext Hfail)
    as (He & Hp & _).
  split; [exact Hp | exact He].
Defined.

(** X16.  When the body of a failure status cannot be read as JSON, the
    error that [search] sets is the one raised by reading the body (as it is
    when it is an [Error]), not one made from the status code. *)
Lemma search_failure_unreadable_body
  (o : Options) (fetch : Transport) (input : string) (st : State)
  (r : Response) (t : Thrown) :
  trim input <> "" ->
  fetch (autocomplete_request o input) = Resolves r -> ok r = false ->
  json r = Throw t ->
  error (search_state o fetch input st) = Some (as_Error t "An error occurred").
Proof.
  intros Htext Hr Hok Hjson.
  rewrite (search_state_thrown o fetch input st t Htext); [reflexivity|].
  rewrite Hr. cbn [suggestions_of]. rewrite Hok. cbn [negb].
  unfold http_failure. rewrite Hjson. reflexivity.
Qed.

(** C4 as stated fails when what the transport raises is not an [Error]:
    the error set is a new [Error] with the text "An error occurred", not
    the value raised and not its text. *)
Lemma raised_value_replaced_when_not_an_Error :
  rejects_with_text (autocomplete_request sample_options "main") =
    Rejects (ThrownOther (Some (JStr "offline"))) /\
  error (search_state sample_options rejects_with_text "main" initial) =
    Some (mkError "Error" (Text "An error occurred")) /\
  error (search_state sample_options rejects_with_text "main" initial) <>
    Some (mkError "Error" (Text "offline")).
Proof. split; [reflexivity|]. split; [reflexivity | discriminate]. Qed.

(* ================================================================= *)
(** ** Place details *)

Lemma find_items_components (tag : string) (comps : list JSON) :
  forallb is_component comps = true ->
  find_items
    (fun comp => let! tys := get_prop (Some comp) "types" in js_includes tys tag) comps =
  Normal (List.find (has_tag tag) comps).
Proof.
  set (p := fun comp => let! tys := get_prop (Some comp) "types" in js_includes tys tag).
  induction comps as [|comp rest IH]; [reflexivity|].
  cbn [forallb]. intros H. apply andb_prop in H as [Hc Hrest].
  cbn [find_items List.find].
  assert (E : p comp = Normal (has_tag tag comp)).
  { unfold p. destruct comp as [| | | | |props]; try discriminate Hc.
    cbn [get_prop cbind is_component has_tag] in *.
    destruct (lookup "types" props) as [[| | | |tys|]|]; try discriminate Hc.
    reflexivity. }
  rewrite E. cbn [cbind]. destruct (has_tag tag comp); [reflexivity | exact (IH Hrest)].
Qed.

(** On components of the declared shape, [extractAddressComponent] is the
    first-match lookup of the specification. *)
Lemma extractAddressComponent_first (tag : string) (comps : list JSON) :
  forallb is_component comps = true ->
  extractAddressComponent (Some (JArr comps)) tag = Normal (first_longText tag comps).
Proof.
  intros H. unfold extractAddressComponent, first_longText. cbn [js_find].
  rewrite (find_items_components tag comps H). cbn [cbind].
  destruct (List.find (has_tag tag) comps) as [comp|] eqn:F; [|reflexivity].
  apply find_some in F as [Hin _].
  rewrite forallb_forall in H. specialize (H comp Hin).
  destruct comp; try discriminate H. reflexivity.
Qed.

Lemma place_details_of_components
  (id : string) (props : list (string * JSON)) (comps : list JSON) :
  lookup "addressComponents" props = Some (JArr comps) \/
  lookup "addressComponents" props = None /\ comps = [] ->
  forallb is_component comps = true ->
  place_details_of id (JObj props) =
  Normal (mkPlaceDetails id (lookup "formattedAddress" props) (Some (JArr comps))
            (lookup "location" props)
            (first_longText "street_number" comps)
            (first_longText "route" comps)
            (first_longText "locality" comps)
            (first_longText "administrative_area_level_1" comps)
            (first_longText "country" comps)
            (first_longText "postal_code" comps)).
Proof.
  intros Hlisted Hcomps. unfold place_details_of. cbn [get_prop cbind].
  assert (E : (if truthy (lookup "addressComponents" props)
               then lookup "addressComponents" props else Some (JArr [])) =
              Some (JArr comps)).
  { destruct Hlisted as [-> | [-> ->]]; reflexivity. }
  rewrite E. rewrite !(extractAddressComponent_first _ comps Hcomps).
  reflexivity.
Qed.

(** C9.  For a success response whose body is an object, with
    [addressComponents] an array of components or left out (then taken as
    the empty array), [getPlaceDetails] resolves with a record in which each
    of [streetNumber], [streetName], [city], [state], [country] and
    [postalCode] is the [longText] of the first component whose [types]
    holds [street_number], [route], [locality],
    [administrative_area_level_1], [country] and [postal_code], and is
    undefined when no component holds the tag. *)
Theorem getPlaceDetails_derives_fields
  (o : Options) (fetch : Transport) (id : string)
  (r : Response) (props : list (string * JSON)) (comps : list JSON) :
  fetch (details_request o id) = Resolves r ->
  ok r = true ->
  json r = Normal (JObj props) ->
  lookup "addressComponents" props = Some (JArr comps) \/
  lookup "addressComponents" props = None /\ comps = [] ->
  forallb is_component comps = true ->
  snd (getPlaceDetails o fetch id) =
  Normal (mkPlaceDetails id (lookup "formattedAddress" props) (Some (JArr comps))
            (lookup "location" props)
            (first_longText "street_number" comps)
            (first_longText "route" comps)
            (first_longText "locality" comps)
            (first_longText "administrative_area_level_1" comps)
            (first_longText "country" comps)
            (first_longText "postal_code" comps)).
Proof.
  intros Hfetch Hok Hjson Hlisted Hcomps.
  unfold getPlaceDetails. cbn [snd]. unfold details_attempt.
  rewrite Hfetch, Hok, Hjson. cbn [negb cbind].
  rewrite (place_details_of_components id props comps Hlisted Hcomps).
  reflexivity.
Qed.

Lemma getPlaceDetails_derives_fields_witness :
  snd (getPlaceDetails sample_options sample_place "abc") =
  Normal (mkPlaceDetails "abc" (Some (JStr "1 Main St")) (Some (JArr [sample_component]))
            None None None None None None (Some (JStr "94105"))).
Proof.
  apply (getPlaceDetails_derives_fields sample_options sample_place "abc"
           (mkResponse true 200
              (Normal (JObj [("formattedAddress", JStr "1 Main St");
                             ("addressComponents", JArr [sample_component])])))
           [("formattedAddress", JStr "1 Main St");
            ("addressComponents", JArr [sample_component])]
           [sample_component]).
  - reflexivity.
  - reflexivity.
  - reflexivity.
  - left. reflexivity.
  - reflexivity.
Defined.




(* ================================================================= *)
(** ** The runtime: what a step changes *)

Lemma commit_frame (calls : list Setter) (w : World) :
  now (commit calls w) = now w /\
  fresh (commit calls w) = fresh w /\
  timers (commit calls w) = timers w /\
  debounceTimer (commit calls w) = debounceTimer w /\
  mounted (commit calls w) = mounted w /\
  in_flight (commit calls w) = in_flight w /\
  fetched (commit calls w) = fetched w /\
  searched (commit calls w) = searched w.
Proof. unfold commit. destruct (mounted w) eqn:E; repeat split; exact E. Qed.

Lemma commit_cells (calls : list Setter) (w : World) :
  cells (commit calls w) = if mounted w then run_setters calls (cells w) else cells w.
Proof. unfold commit. destruct (mounted w); reflexivity. Qed.

(** The first stretch of [search]: what it does to the runtime. *)
Lemma run_search_frame (o : Options) (input : string) (w : World) :
  now (run_search o input w) = now w /\
  timers (run_search o input w) = timers w /\
  debounceTimer (run_search o input w) = debounceTimer w /\
  mounted (run_search o input w) = mounted w /\
  searched (run_search o input w) = (searched w ++ [input])%list /\
  fetched (run_search o input w) = (fetched w ++ calls_for o input)%list.
Proof.
  unfold run_search, search_begin, calls_for, commit. cbn [truthy negb].
  destruct (String.eqb (trim input) ""); destruct (mounted w) eqn:E; cbn;
    rewrite ?app_nil_r; repeat split; exact E.
Qed.




Lemma clearTimeout_owned (w : World) (h : positive) :
  owned w -> debounceTimer w = Some h -> clearTimeout h (timers w) = [].
Proof.
  unfold owned, clearTimeout. intros Ho Hd.
  induction (timers w) as [|t rest IH]; [reflexivity|].
  cbn [filter].
  assert (E : handle t = h).
  { specialize (Ho t (or_introl eq_refl)). congruence. }
  rewrite E, Pos.eqb_refl. cbn [negb]. apply IH.
  intros t' Hin. apply Ho. right. exact Hin.
Qed.

Lemma owned_no_handle (w : World) : owned w -> debounceTimer w = None -> timers w = [].
Proof.
  unfold owned. intros Ho Hd. destruct (timers w) as [|t rest]; [reflexivity|].
  specialize (Ho t (or_introl eq_refl)). congruence.
Qed.

Lemma armed_owned (o : Options) (w : World) (input : string) : armed o w input -> owned w.
Proof.
  intros (h & Ht & Hd) t Hin. rewrite Ht in Hin.
  destruct Hin as [<- | []]. exact Hd.
Qed.

(** [debouncedSearch] leaves exactly one timeout pending, its own. *)
Lemma debouncedSearch_arms (o : Options) (input : string) (w : World) :
  owned w ->
  armed o (debouncedSearch o input w) input /\
  searched (debouncedSearch o input w) = searched w /\
  fetched (debouncedSearch o input w) = fetched w /\
  cells (debouncedSearch o input w) = cells w.
Proof.
  intros Ho. split; [|repeat split].
  exists (fresh w). unfold debouncedSearch. cbn.
  destruct (debounceTimer w) as [h|] eqn:Hd.
  - rewrite (clearTimeout_owned w h Ho Hd). split; reflexivity.
  - rewrite (owned_no_handle w Ho Hd). split; reflexivity.
Qed.


(** Once the delay has passed the pending timeout runs [search]. *)
Lemma elapse_late (o : Options) (ms : nat) (w : World) (input : string) :
  armed o w input -> debounceMs_of o <= ms ->
  elapse o ms w =
  run_search o input
    (mkWorld (now w + ms) (fresh w) [] (debounceTimer w) (mounted w) (cells w)
             (in_flight w) (fetched w) (searched w)).
Proof.
  intros (h & Ht & Hd) Hms. unfold elapse. rewrite Ht. cbn [filter due].
  assert (E : Nat.leb (now w + debounceMs_of o) (now w + ms) = true)
    by (apply Nat.leb_le; lia).
  rewrite E. reflexivity.
Qed.



Lemma owned_boot : owned boot.
Proof. intros t []. Qed.



(* ================================================================= *)
(** ** Debouncing *)




(* ================================================================= *)
(** ** Unmounting *)




(** The cleanup leaves no timeout pending and touches nothing else. *)
Lemma unmount_frozen (w : World) :
  owned w ->
  frozen (unmount w) /\
  cells (unmount w) = cells w /\
  fetched (unmount w) = fetched w /\
  searched (unmount w) = searched w /\
  in_flight (unmount w) = in_flight w.
Proof.
  intros Ho. unfold unmount, cleanup, frozen.
  destruct (debounceTimer w) as [h|] eqn:Hd; cbn.
  - rewrite (clearTimeout_owned w h Ho Hd). repeat split.
  - rewrite (owned_no_handle w Ho Hd). repeat split.
Qed.

Lemma fold_run_search_timers (o : Options) (ready : list Timer) (w : World) :
  timers (fold_left (fun acc x => run_search o (queued x) acc) ready w) = timers w /\
  debounceTimer (fold_left (fun acc x => run_search o (queued x) acc) ready w) =
    debounceTimer w.
Proof.
  revert w. induction ready as [|x rest IH]; intros w; [split; reflexivity|].
  cbn [fold_left]. destruct (IH (run_search o (queued x) w)) as (Ht & Hd).
  destruct (run_search_frame o (queued x) w) as (_ & Ht' & Hd' & _).
  split; congruence.
Qed.

(** Every step keeps the pending timeouts the hook's own; so they are in
    every state the hook can reach. *)
Lemma owned_step (o : Options) (w : World) (e : Event) : owned w -> owned (step o w e).
Proof.
  intros Ho. destruct e as [input| |ms|call outcome|]; cbn [step].
  - destruct (debouncedSearch_arms o input w Ho) as (Ha & _).
    exact (armed_owned o _ input Ha).
  - destruct (commit_frame (fst clear) w) as (_ & _ & Ht & Hd & _).
    unfold owned. rewrite Ht, Hd. exact Ho.
  - unfold elapse, owned.
    match goal with |- context [fold_left ?f ?l ?w0] =>
      destruct (fold_run_search_timers o l w0) as (Ht & Hd) end.
    rewrite Ht, Hd. cbn. intros t Hin.
    apply filter_In in Hin as [Hin _]. exact (Ho t Hin).
  - unfold respond. destruct (existsb (Nat.eqb call) (in_flight w)); [|exact Ho].
    match goal with |- owned (commit ?c ?w0) =>
      destruct (commit_frame c w0) as (_ & _ & Ht & Hd & _) end.
    unfold owned. rewrite Ht, Hd. exact Ho.
  - destruct (unmount_frozen w Ho) as ((_ & Ht) & _).
    unfold owned. rewrite Ht. intros t [].
Qed.

Lemma owned_run (o : Options) (es : list Event) : owned (run o boot es).
Proof.
  unfold run. rewrite <- (rev_involutive es).
  induction (rev es) as [|e rest IH]; [exact owned_boot|].
  cbn [rev]. rewrite fold_left_app. cbn [fold_left]. apply owned_step, IH.
Qed.






(* ================================================================= *)
(** ** Place details: failures and odd bodies *)

(** X1.  When [getPlaceDetails] rejects, what it rejects with is always an
    [Error]: an [Error] raised by the transport is passed on as it is, and
    any other raised value is replaced by a new [Error] with the text
    "An error occurred while fetching place details". *)
Theorem getPlaceDetails_rejects_with_Error (o : Options) (fetch : Transport) (id : string) :
  (forall t, snd (getPlaceDetails o fetch id) = Throw t -> exists e, t = ThrownError e) /\
  (forall e, fetch (details_request o id) = Rejects (ThrownError e) ->
             snd (getPlaceDetails o fetch id) = Throw (ThrownError e)) /\
  (forall v, fetch (details_request o id) = Rejects (ThrownOther v) ->
             snd (getPlaceDetails o fetch id) =
             Throw (ThrownError
                      (mkError "Error" (Text "An error occurred while fetching place details")))).
Proof.
  unfold getPlaceDetails. cbn [snd]. split; [|split].
  - intros t. destruct (details_attempt id (fetch (details_request o id))) as [d|err].
    + discriminate.
    + intros H. injection H as <-. eexists. reflexivity.
  - intros e ->. reflexivity.
  - intros v ->. reflexivity.
Qed.

(** X2.  For a failure status whose body parses to a value other than
    [null], [getPlaceDetails] rejects with an [Error] whose message is the
    body's [error.message] when that is a non-empty string, and
    "HTTP error! status: <code>" when it is missing or falsy. *)
Theorem getPlaceDetails_failure_status
  (o : Options) (fetch : Transport) (id : string) (r : Response) (errorData : JSON) :
  fetch (details_request o id) = Resolves r ->
  ok r = false ->
  json r = Normal errorData ->
  errorData <> JNull ->
  (forall m, error_message_field errorData = Some (JStr m) -> m <> "" ->
             snd (getPlaceDetails o fetch id) =
             Throw (ThrownError (mkError "Error" (Text m)))) /\
  (truthy (error_message_field errorData) = false ->
   snd (getPlaceDetails o fetch id) =
   Throw (ThrownError (mkError "Error" (status_message r)))).
Proof.
  intros Hfetch Hok Hjson Hnull.
  unfold getPlaceDetails. cbn [snd]. unfold details_attempt.
  rewrite Hfetch, Hok. cbn [negb].
  rewrite (http_failure_message r errorData Hjson Hnull). cbn [as_Error].
  split.
  - intros m Hm Hne. rewrite Hm. cbn [truthy].
    destruct (String.eqb_spec m ""); [contradiction | reflexivity].
  - intros Hfalsy. destruct (error_message_field errorData) as [m|]; [|reflexivity].
    rewrite Hfalsy. reflexivity.
Qed.

Lemma getPlaceDetails_failure_status_witness :
  snd (getPlaceDetails sample_options quota_exceeded "abc") =
  Throw (ThrownError (mkError "Error" (Text "Quota exceeded"))).
Proof.
  destruct (getPlaceDetails_failure_status sample_options quota_exceeded "abc"
              (mkResponse false 429
                 (Normal (JObj [("error", JObj [("message", JStr "Quota exceeded")])])))
              (JObj [("error", JObj [("message", JStr "Quota exceeded")])])
              eq_refl eq_refl eq_refl) as (Hm & _).
  - discriminate.
  - apply (Hm "Quota exceeded"); [reflexivity | discriminate].
Defined.

Lemma extract_from_empty (tag : string) :
  extractAddressComponent (Some (JArr [])) tag = Normal None.
Proof. reflexivity. Qed.

(** X3.  [data.addressComponents || []]: a falsy [addressComponents]
    ([null], [false], [0], the empty string, or none at all) is taken as
    the empty array, and every derived field is undefined. *)
Theorem getPlaceDetails_falsy_components
  (o : Options) (fetch : Transport) (id : string)
  (r : Response) (props : list (string * JSON)) :
  fetch (details_request o id) = Resolves r ->
  ok r = true ->
  json r = Normal (JObj props) ->
  truthy (lookup "addressComponents" props) = false ->
  snd (getPlaceDetails o fetch id) =
  Normal (mkPlaceDetails id (lookup "formattedAddress" props) (Some (JArr []))
            (lookup "location" props) None None None None None None).
Proof.
  intros Hfetch Hok Hjson Hfalsy.
  unfold getPlaceDetails. cbn [snd]. unfold details_attempt.
  rewrite Hfetch, Hok, Hjson. cbn [negb cbind].
  unfold place_details_of. cbn [get_prop cbind]. rewrite Hfalsy.
  rewrite !extract_from_empty. reflexivity.
Qed.

Lemma getPlaceDetails_falsy_components_witness :
  snd (getPlaceDetails sample_options
         (respond_with (mkResponse true 200 (Normal (JObj [("addressComponents", JNull)]))))
         "abc") =
  Normal (mkPlaceDetails "abc" None (Some (JArr [])) None None None None None None None).
Proof.
  apply (getPlaceDetails_falsy_components sample_options
           (respond_with (mkResponse true 200 (Normal (JObj [("addressComponents", JNull)]))))
           "abc"
           (mkResponse true 200 (Normal (JObj [("addressComponents", JNull)])))
           [("addressComponents", JNull)]); reflexivity.
Defined.



Lemma find_items_first_match (tag : string) (pre post : list JSON) (c : JSON) :
  forallb is_component pre = true ->
  existsb (has_tag tag) pre = false ->
  is_component c = true ->
  has_tag tag c = true ->
  find_items
    (fun comp => let! tys := get_prop (Some comp) "types" in js_includes tys tag)
    (pre ++ c :: post) = Normal (Some c).
Proof.
  set (p := fun comp => let! tys := get_prop (Some comp) "types" in js_includes tys tag).
  assert (E : forall x, is_component x = true -> p x = Normal (has_tag tag x)).
  { intros x Hx. unfold p. destruct x as [| | | | |props]; try discriminate Hx.
    cbn [get_prop cbind is_component has_tag] in *.
    destruct (lookup "types" props) as [[| | | |tys|]|]; try discriminate Hx.
    reflexivity. }
  induction pre as [|x pre IH]; cbn [forallb existsb app find_items];
    intros Hpre Hnone Hc Htag.
  - rewrite (E c Hc), Htag. reflexivity.
  - apply andb_prop in Hpre as [Hx Hpre].
    apply orb_false_elim in Hnone as [Hxn Hnone].
    rewrite (E x Hx), Hxn. cbn [cbind]. exact (IH Hpre Hnone Hc Htag).
Qed.

(** X5.  [extractAddressComponent] stops at the first component whose
    [types] holds the tag: it answers with that component's [longText] and
    never looks at the components after it, whatever they are. *)
Theorem extractAddressComponent_stops_at_first_match
  (tag : string) (pre post : list JSON) (props : list (string * JSON)) :
  forallb is_component pre = true ->
  existsb (has_tag tag) pre = false ->
  is_component (JObj props) = true ->
  has_tag tag (JObj props) = true ->
  extractAddressComponent (Some (JArr (pre ++ JObj props :: post))) tag =
  Normal (lookup "longText" props).
Proof.
  intros Hpre Hnone Hc Htag. unfold extractAddressComponent. cbn [js_find].
  rewrite (find_items_first_match tag pre post (JObj props) Hpre Hnone Hc Htag).
  reflexivity.
Qed.

Lemma extractAddressComponent_stops_at_first_match_witness :
  extractAddressComponent
    (Some (JArr ([JObj [("longText", JStr "US"); ("types", JArr [JStr "country"])]]
                 ++ sample_component :: [JNull; JStr "junk"])))
    "postal_code" = Normal (Some (JStr "94105")).
Proof.
  apply (extractAddressComponent_stops_at_first_match "postal_code"
           [JObj [("longText", JStr "US"); ("types", JArr [JStr "country"])]]
           [JNull; JStr "junk"]
           [("longText", JStr "94105"); ("shortText", JStr "94105");
            ("types", JArr [JStr "postal_code"])]); reflexivity.
Defined.

(* ================================================================= *)
(** ** Search: odd bodies and the request *)

Lemma map_items_null (items : list JSON) :
  In JNull items ->
  exists text,
    map_items (fun suggestion => get_prop (Some suggestion) "placePrediction") items =
    Throw (TypeError text).
Proof.
  set (f := fun suggestion => get_prop (Some suggestion) "placePrediction").
  induction items as [|x rest IH]; intros Hin; [destruct Hin|].
  cbn [map_items]. unfold f at 1.
  destruct x; cbn [get_prop cbind];
    try (destruct Hin as [Hx | Hin]; [discriminate Hx|];
         destruct (IH Hin) as (text & ->); eexists; reflexivity).
  eexists. reflexivity.
Qed.

(** X6.  A success body whose [suggestions] is there but is not an array,
    or is an array with a [null] entry, is a failure as a whole: the error
    is a [TypeError], the predictions are empty (no entry of the array is
    kept) and [loading] is false. *)
Theorem search_malformed_suggestions
  (o : Options) (fetch : Transport) (input : string) (st : State)
  (r : Response) (data v : JSON) :
  trim input <> "" ->
  fetch (autocomplete_request o input) = Resolves r ->
  ok r = true ->
  json r = Normal data ->
  get_prop (Some data) "suggestions" = Normal (Some v) ->
  (is_array v = false \/ exists items, v = JArr items /\ In JNull items) ->
  exists text,
    search_state o fetch input st =
    mkState [] false (Some (mkError "TypeError" (Text text))).
Proof.
  intros Htext Hfetch Hok Hjson Hget Hbad.
  assert (E : exists text,
             suggestions_of (fetch (autocomplete_request o input)) =
             Throw (TypeError text)).
  { rewrite Hfetch. cbn [suggestions_of]. rewrite Hok, Hjson. cbn [negb cbind].
    rewrite Hget. cbn [cbind].
    destruct Hbad as [Harr | (items & -> & Hin)].
    - destruct v; try discriminate Harr; eexists; reflexivity.
    - cbn [js_map]. exact (map_items_null items Hin). }
  destruct E as (text & E). exists text.
  rewrite (search_state_thrown o fetch input st _ Htext E). reflexivity.
Qed.

Lemma search_malformed_suggestions_witness :
  exists text,
    search_state sample_options
      (respond_with
         (mkResponse true 200
            (Normal (JObj [("suggestions",
                            JArr [JObj [("placePrediction", sample_prediction)]; JNull])]))))
      "main" initial =
    mkState [] false (Some (mkError "TypeError" (Text text))).
Proof.
  apply (search_malformed_suggestions sample_options
           (respond_with
              (mkResponse true 200
                 (Normal (JObj [("suggestions",
                                 JArr [JObj [("placePrediction", sample_prediction)]; JNull])]))))
           "main" initial
           (mkResponse true 200
              (Normal (JObj [("suggestions",
                              JArr [JObj [("placePrediction", sample_prediction)]; JNull])])))
           (JObj [("suggestions",
                   JArr [JObj [("placePrediction", sample_prediction)]; JNull])])
           (JArr [JObj [("placePrediction", sample_prediction)]; JNull])).
  - discriminate.
  - reflexivity.
  - reflexivity.
  - reflexivity.
  - reflexivity.
  - right. eexists. split; [reflexivity|]. right. left. reflexivity.
Defined.



(* ================================================================= *)
(** ** Responses that arrive *)

Lemma respond_cells (k : nat) (outcome : FetchOutcome) (w : World) :
  mounted w = true ->
  existsb (Nat.eqb k) (in_flight w) = true ->
  cells (respond k outcome w) = run_setters (fst (search_resume outcome)) (cells w).
Proof.
  intros Hm Hk. unfold respond. rewrite Hk, commit_cells. cbn [mounted cells].
  rewrite Hm. reflexivity.
Qed.

(** X8.  There is no fencing between requests: when a mounted hook gets the
    response of any request still in flight, whether or not a later request
    was started since, a success replaces the predictions with its mapped
    suggestions, lowers [loading], and leaves the error as it was; a failure
    empties the predictions, lowers [loading], and sets the error. *)
Theorem response_applies_without_fencing (k : nat) (outcome : FetchOutcome) (w : World) :
  mounted w = true ->
  existsb (Nat.eqb k) (in_flight w) = true ->
  (forall r data items,
      outcome = Resolves r -> ok r = true -> json r = Normal data ->
      get_prop (Some data) "suggestions" = Normal (Some (JArr items)) ->
      Forall (fun s => s <> JNull) items ->
      cells (respond k outcome w) =
      mkState (map placePrediction_of items) false (error (cells w))) /\
  (Failure outcome ->
   predictions (cells (respond k outcome w)) = [] /\
   loading (cells (respond k outcome w)) = false /\
   error (cells (respond k outcome w)) <> None).
Proof.
  intros Hm Hk. rewrite (respond_cells k outcome w Hm Hk). split.
  - intros r data items -> Hok Hjson Hget Hitems. unfold search_resume.
    rewrite (suggestions_of_success r data items Hok Hjson Hget Hitems).
    reflexivity.
  - intros Hfail. destruct (failure_throws outcome Hfail) as (t & Ht).
    unfold search_resume. rewrite Ht. cbn. repeat split. discriminate.
Qed.

Lemma response_applies_without_fencing_witness :
  cells (respond 0 (one_suggestion (autocomplete_request sample_options "ma"))
           (run sample_options boot
              [Query "ma"; Elapse 300; Query "main"; Elapse 300;
               Respond 1 (network_error (autocomplete_request sample_options "main"))])) =
  mkState [Some sample_prediction] false
    (Some (mkError "TypeError" (Text "Network error"))).
Proof.
  destruct (response_applies_without_fencing 0
              (one_suggestion (autocomplete_request sample_options "ma"))
              (run sample_options boot
                 [Query "ma"; Elapse 300; Query "main"; Elapse 300;
                  Respond 1 (network_error (autocomplete_request sample_options "main"))])
              eq_refl eq_refl) as (Hok & _).
  apply (Hok (mkResponse true 200
                (Normal (JObj [("suggestions",
                                JArr [JObj [("placePrediction", sample_prediction)]])])))
             (JObj [("suggestions", JArr [JObj [("placePrediction", sample_prediction)]])])
             [JObj [("placePrediction", sample_prediction)]]);
    try reflexivity.
  repeat constructor; discriminate.
Defined.

(* ================================================================= *)
(** ** The runtime: what every reachable state satisfies *)

(** The timeouts that are due: what running them adds to the logs. *)
Lemma fold_run_search_logs (o : Options) (ready : list Timer) (w : World) :
  searched (fold_left (fun acc x => run_search o (queued x) acc) ready w) =
    (searched w ++ map queued ready)%list /\
  fetched (fold_left (fun acc x => run_search o (queued x) acc) ready w) =
    (fetched w ++ flat_map (calls_for o) (map queued ready))%list.
Proof.
  revert w. induction ready as [|x rest IH]; intros w.
  - cbn. rewrite !app_nil_r. split; reflexivity.
  - cbn [fold_left map flat_map].
    destruct (IH (run_search o (queued x) w)) as (Hs & Hf).
    destruct (run_search_frame o (queued x) w) as (_ & _ & _ & _ & Hs' & Hf').
    rewrite Hs, Hf, Hs', Hf', <- !app_assoc. split; reflexivity.
Qed.

Lemma run_snoc (o : Options) (w : World) (es : list Event) (e : Event) :
  run o w (es ++ [e]) = step o (run o w es) e.
Proof. unfold run. rewrite fold_left_app. reflexivity. Qed.

Lemma one_timer_step (o : Options) (w : World) (e : Event) :
  owned w -> length (timers w) <= 1 -> length (timers (step o w e)) <= 1.
Proof.
  intros Ho Hlen. destruct e as [input| |ms|call outcome|]; cbn [step].
  - destruct (debouncedSearch_arms o input w Ho) as ((h & -> & _) & _). reflexivity.
  - destruct (commit_frame (fst clear) w) as (_ & _ & -> & _). exact Hlen.
  - unfold elapse.
    match goal with |- context [fold_left ?f ?l ?w0] =>
      destruct (fold_run_search_timers o l w0) as (-> & _) end.
    cbn [timers].
    pose proof (filter_length_le (fun x => negb (Nat.leb (due x) (now w + ms))) (timers w)).
    lia.
  - unfold respond. destruct (existsb (Nat.eqb call) (in_flight w)); [|exact Hlen].
    match goal with |- context [commit ?c ?w0] =>
      destruct (commit_frame c w0) as (_ & _ & -> & _) end.
    exact Hlen.
  - destruct (unmount_frozen w Ho) as ((_ & ->) & _). cbn. lia.
Qed.

(** X9.  Whatever the caller does (calls of [search] and [clear], waits,
    responses, unmounting, in any order), at most one timeout of the hook is
    pending at any moment. *)
Theorem at_most_one_timer (o : Options) (es : list Event) :
  length (timers (run o boot es)) <= 1.
Proof.
  rewrite <- (rev_involutive es).
  induction (rev es) as [|e rest IH]; [cbn; lia|].
  cbn [rev]. rewrite run_snoc.
  apply one_timer_step; [apply owned_run | exact IH].
Qed.

Lemma logs_step (o : Options) (w : World) (e : Event) :
  fetched w = flat_map (calls_for o) (searched w) ->
  fetched (step o w e) = flat_map (calls_for o) (searched (step o w e)).
Proof.
  intros H. destruct e as [input| |ms|call outcome|]; cbn [step].
  - exact H.
  - destruct (commit_frame (fst clear) w) as (_ & _ & _ & _ & _ & _ & -> & ->). exact H.
  - unfold elapse.
    match goal with |- context [fold_left ?f ?l ?w0] =>
      destruct (fold_run_search_logs o l w0) as (-> & ->) end.
    cbn [searched fetched]. rewrite flat_map_app, H. reflexivity.
  - unfold respond. destruct (existsb (Nat.eqb call) (in_flight w)); [|exact H].
    match goal with |- context [commit ?c ?w0] =>
      destruct (commit_frame c w0) as (_ & _ & _ & _ & _ & _ & -> & ->) end.
    exact H.
  - unfold unmount, cleanup. destruct (debounceTimer w); exact H.
Qed.

Lemma calls_for_short (o : Options) (text : string) : length (calls_for o text) <= 1.
Proof. unfold calls_for. destruct (String.eqb (trim text) ""); cbn; lia. Qed.

Lemma flat_map_calls_short (o : Options) (texts : list string) :
  length (flat_map (calls_for o) texts) <= length texts.
Proof.
  induction texts as [|t rest IH]; [reflexivity|].
  cbn [flat_map]. rewrite length_app. pose proof (calls_for_short o t). cbn [length]. lia.
Qed.

(** X10.  The calls of [fetch] made by searching are, in order, the
    autocomplete requests of the texts [search] ran with, one for each text
    that is not blank and none for a blank one; so the transport is never
    called more often than [search] ran.  This holds in every state the hook
    can reach. *)
Theorem fetched_from_searched (o : Options) (es : list Event) :
  fetched (run o boot es) = flat_map (calls_for o) (searched (run o boot es)) /\
  length (fetched (run o boot es)) <= length (searched (run o boot es)).
Proof.
  assert (E : fetched (run o boot es) = flat_map (calls_for o) (searched (run o boot es))).
  { rewrite <- (rev_involutive es).
    induction (rev es) as [|e rest IH]; [reflexivity|].
    cbn [rev]. rewrite run_snoc. apply logs_step, IH. }
  split; [exact E|]. rewrite E. apply flat_map_calls_short.
Qed.

Lemma count_queries_snoc (es : list Event) (e : Event) :
  count_queries (es ++ [e]) = count_queries es + (if is_query e then 1 else 0).
Proof.
  unfold count_queries. rewrite filter_app, length_app. cbn [filter].
  destruct (is_query e); reflexivity.
Qed.

Lemma budget_step (o : Options) (w : World) (e : Event) :
  length (searched (step o w e)) + length (timers (step o w e)) <=
  length (searched w) + length (timers w) + (if is_query e then 1 else 0).
Proof.
  destruct e as [input| |ms|call outcome|]; cbn [step is_query].
  - unfold debouncedSearch. cbn [searched timers]. rewrite length_app. cbn [length].
    assert (length match debounceTimer w with
                   | Some h => clearTimeout h (timers w)
                   | None => timers w
                   end <= length (timers w)).
    { destruct (debounceTimer w); [apply filter_length_le | lia]. }
    lia.
  - destruct (commit_frame (fst clear) w) as (_ & _ & -> & _ & _ & _ & _ & ->). lia.
  - unfold elapse.
    match goal with |- context [fold_left ?f ?l ?w0] =>
      destruct (fold_run_search_logs o l w0) as (-> & _);
      destruct (fold_run_search_timers o l w0) as (-> & _) end.
    cbn [searched timers]. rewrite length_app, length_map.
    pose proof (filter_length (fun x => Nat.leb (due x) (now w + ms)) (timers w)).
    lia.
  - unfold respond. destruct (existsb (Nat.eqb call) (in_flight w)); [|lia].
    match goal with |- context [commit ?c ?w0] =>
      destruct (commit_frame c w0) as (_ & _ & -> & _ & _ & _ & _ & ->) end.
    cbn [searched timers]. lia.
  - unfold unmount, cleanup. destruct (debounceTimer w); cbn [searched timers]; [|lia].
    pose proof (filter_length_le (fun t => negb (Pos.eqb (handle t) p)) (timers w)).
    unfold clearTimeout. lia.
Qed.

(** X11.  [search] never runs more often than the returned [search] was
    called: in every reachable state the number of runs of [search], plus
    the timeouts still pending, is at most the number of calls. *)
Theorem searches_bounded_by_calls (o : Options) (es : list Event) :
  length (searched (run o boot es)) + length (timers (run o boot es)) <= count_queries es.
Proof.
  rewrite <- (rev_involutive es).
  induction (rev es) as [|e rest IH]; [cbn; lia|].
  cbn [rev]. rewrite run_snoc, count_queries_snoc.
  pose proof (budget_step o (run o boot (rev rest)) e). lia.
Qed.

(* ================================================================= *)
(** ** How calls compose *)

(** X12.  Calls of the returned [search] that are each followed by a wait of
    at least the delay are not merged: [search] runs once for each, in the
    order of the calls, and the transport is called for each text that is
    not blank. *)
Theorem spaced_calls_all_run (o : Options) (calls : list (string * nat)) :
  forall w : World,
    owned w ->
    Forall (fun call => debounceMs_of o <= snd call) calls ->
    searched (run o w (spaced calls)) = (searched w ++ map fst calls)%list /\
    fetched (run o w (spaced calls)) =
      (fetched w ++ flat_map (calls_for o) (map fst calls))%list.
Proof.
  induction calls as [|[input wait] more IH]; intros w Ho Hwaits.
  - cbn. rewrite !app_nil_r. split; reflexivity.
  - inversion Hwaits as [|? ? Hwait Hmore]; subst. cbn [snd] in Hwait.
    cbn [spaced run fold_left].
    assert (Ho' : owned (step o (step o w (Query input)) (Elapse wait)))
      by (apply owned_step, owned_step, Ho).
    destruct (IH _ Ho' Hmore) as (Hs & Hf).
    unfold run in Hs, Hf. rewrite Hs, Hf.
    cbn [step].
    destruct (debouncedSearch_arms o input w Ho) as (Ha & Hs1 & Hf1 & _).
    rewrite (elapse_late o wait _ input Ha Hwait).
    match goal with |- context [run_search o input ?w0] =>
      destruct (run_search_frame o input w0) as (_ & _ & _ & _ & -> & ->) end.
    cbn [searched fetched map flat_map fst]. rewrite Hs1, Hf1, <- !app_assoc.
    split; reflexivity.
Qed.

Lemma spaced_calls_all_run_witness :
  searched (run sample_options boot [Query "ma"; Elapse 300; Query " "; Elapse 400;
                                     Query "main"; Elapse 300]) = ["ma"; " "; "main"] /\
  fetched (run sample_options boot [Query "ma"; Elapse 300; Query " "; Elapse 400;
                                    Query "main"; Elapse 300]) =
    [autocomplete_request sample_options "ma"; autocomplete_request sample_options "main"].
Proof.
  apply (spaced_calls_all_run sample_options [("ma", 300); (" ", 400); ("main", 300)] boot).
  - exact owned_boot.
  - repeat constructor; cbn; lia.
Defined.

Lemma armed_commit (o : Options) (calls : list Setter) (w : World) (input : string) :
  armed o w input -> armed o (commit calls w) input.
Proof.
  intros (h & Ht & Hd).
  destruct (commit_frame calls w) as (Hn & _ & Ht' & Hd' & _).
  exists h. rewrite Ht', Hd', Hn. split; assumption.
Qed.

(** X13.  [clear] does not cancel a search that is waiting for its delay:
    called between a call of the returned [search] and the end of the delay,
    it leaves the timeout pending, and when the delay has passed [search]
    runs with the text of that call and calls the transport as it would
    have. *)
Theorem clear_does_not_cancel (o : Options) (w : World) (input : string) (wait : nat) :
  armed o w input ->
  debounceMs_of o <= wait ->
  timers (step o w Clear) = timers w /\
  searched (run o w [Clear; Elapse wait]) = (searched w ++ [input])%list /\
  fetched (run o w [Clear; Elapse wait]) = (fetched w ++ calls_for o input)%list.
Proof.
  intros Ha Hwait. cbn [run fold_left step].
  destruct (commit_frame (fst clear) w) as (_ & _ & Ht & _ & _ & _ & Hf & Hs).
  split; [exact Ht|].
  rewrite (elapse_late o wait _ input (armed_commit o (fst clear) w input Ha) Hwait).
  match goal with |- context [run_search o input ?w0] =>
    destruct (run_search_frame o input w0) as (_ & _ & _ & _ & -> & ->) end.
  cbn [searched fetched]. rewrite Hs, Hf. split; reflexivity.
Qed.

Lemma clear_does_not_cancel_witness :
  fetched (run sample_options (run sample_options boot [Query "main"]) [Clear; Elapse 300]) =
  [autocomplete_request sample_options "main"].
Proof.
  assert (Ha : armed sample_options (run sample_options boot [Query "main"]) "main").
  { exists 1%positive. split; reflexivity. }
  destruct (clear_does_not_cancel sample_options
              (run sample_options boot [Query "main"]) "main" 300 Ha (le_n 300))
    as (_ & _ & Hf).
  exact Hf.
Defined.

Lemma run_search_unmounted (o : Options) (input : string) (w : World) :
  mounted w = false -> cells (run_search o input w) = cells w.
Proof.
  intros Hm. unfold run_search, commit. cbn [mounted].
  destruct (search_begin o input); rewrite Hm; reflexivity.
Qed.

(** X14.  The returned [search] has no guard against use after the unmount:
    called on an unmounted hook it still arms a timeout, and when the delay
    has passed [search] runs and calls the transport for a text that is not
    blank; only predictions, loading and error stay as they were. *)
Theorem search_after_unmount_still_fetches
  (o : Options) (w : World) (input : string) (wait : nat) :
  frozen w ->
  debounceMs_of o <= wait ->
  searched (run o w [Query input; Elapse wait]) = (searched w ++ [input])%list /\
  fetched (run o w [Query input; Elapse wait]) = (fetched w ++ calls_for o input)%list /\
  cells (run o w [Query input; Elapse wait]) = cells w.
Proof.
  intros (Hm & Ht) Hwait.
  assert (Ho : owned w) by (intros t Hin; rewrite Ht in Hin; destruct Hin).
  cbn [run fold_left step].
  destruct (debouncedSearch_arms o input w Ho) as (Ha & Hs & Hf & Hc).
  rewrite (elapse_late o wait _ input Ha Hwait).
  match goal with |- context [run_search o input ?w0] =>
    destruct (run_search_frame o input w0) as (_ & _ & _ & _ & -> & ->);
    rewrite (run_search_unmounted o input w0 Hm) end.
  cbn [searched fetched cells]. rewrite Hs, Hf, Hc. repeat split.
Qed.

Lemma search_after_unmount_still_fetches_witness :
  fetched (run sample_options (run sample_options boot [Unmount])
             [Query "main"; Elapse 300]) = [autocomplete_request sample_options "main"] /\
  cells (run sample_options (run sample_options boot [Unmount])
           [Query "main"; Elapse 300]) = initial.
Proof.
  destruct (search_after_unmount_still_fetches sample_options
              (run sample_options boot [Unmount]) "main" 300
              (conj eq_refl eq_refl) (le_n 300)) as (_ & Hf & Hc).
  split; [exact Hf | exact Hc].
Defined.

(* ================================================================= *)
(** ** Malformed components and unreadable bodies *)

(** X15.  A component without [types] that comes before any component
    holding the tag makes [extractAddressComponent] throw a [TypeError]
    ([includes] is read of [undefined]); the components after it, a matching
    one included, do not help. *)
Theorem extractAddressComponent_untyped_component
  (tag : string) (pre post : list JSON) (props : list (string * JSON)) :
  forallb is_component pre = true ->
  existsb (has_tag tag) pre = false ->
  lookup "types" props = None ->
  extractAddressComponent (Some (JArr (pre ++ JObj props :: post))) tag =
  Throw (TypeError "Cannot read properties of undefined (reading 'includes')").
Proof.
  intros Hpre Hnone Htypes. unfold extractAddressComponent. cbn [js_find].
  set (p := fun comp => let! tys := get_prop (Some comp) "types" in js_includes tys tag).
  assert (E : find_items p (pre ++ JObj props :: post) =
              Throw (TypeError "Cannot read properties of undefined (reading 'includes')")).
  { induction pre as [|x pre IH]; cbn [forallb existsb app find_items] in *.
    - unfold p at 1. cbn [get_prop cbind]. rewrite Htypes. reflexivity.
    - apply andb_prop in Hpre as [Hx Hpre].
      apply orb_false_elim in Hnone as [Hxn Hnone].
      assert (Ex : p x = Normal (has_tag tag x)).
      { unfold p. destruct x as [| | | | |xprops]; try discriminate Hx.
        cbn [get_prop cbind is_component has_tag] in *.
        destruct (lookup "types" xprops) as [[| | | |tys|]|]; try discriminate Hx.
        reflexivity. }
      rewrite Ex, Hxn. cbn [cbind]. exact (IH Hpre Hnone). }
  rewrite E. reflexivity.
Qed.

Lemma extractAddressComponent_untyped_component_witness :
  extractAddressComponent
    (Some (JArr ([] ++ JObj [("longText", JStr "Main St")] :: [sample_component])))
    "postal_code" =
  Throw (TypeError "Cannot read properties of undefined (reading 'includes')").
Proof.
  apply (extractAddressComponent_untyped_component "postal_code" []
           [sample_component] [("longText", JStr "Main St")]); reflexivity.
Defined.

Lemma search_failure_unreadable_body_witness :
  error (search_state sample_options bad_gateway "main" initial) =
  Some (mkError "SyntaxError" (Text "Unexpected token '<'")).
Proof.
  apply (search_failure_unreadable_body sample_options bad_gateway "main" initial
           (mkResponse false 502
              (Throw (ThrownError (mkError "SyntaxError" (Text "Unexpected token '<'")))))
           (ThrownError (mkError "SyntaxError" (Text "Unexpected token '<'")))).
  - discriminate.
  - reflexivity.
  - reflexivity.
  - reflexivity.
Defined.
